(** * googlemaps/places.py: the Places API parameter builders

    A shallow embedding of the four operations of [googlemaps/places.py]
    ([places], [place], [places_photo], [places_autocomplete]) and of the
    client collaborator they delegate to, followed by the properties of the
    parameter mappings they build; and of the nox sessions of
    [noxfile.py] with the order of their actions. *)

Set Warnings "-register-all".
From stdpp Require Import gmap strings list fin_maps pretty.

(** ** Python values *)

(** The values the operations receive as arguments, put into the parameter
    mapping, and read out of a parsed JSON envelope.  A [dict] with string
    keys is a [gmap string value]; floating-point numbers are left out. *)
Inductive value : Type :=
  | VNone
  | VBool (b : bool)
  | VInt (z : Z)
  | VStr (s : string)
  | VList (l : list value)
  | VTuple (l : list value)
  | VDict (d : gmap string value).

(** Python truth value testing, as used by [if x:] and [not x]. *)
Definition truthy (v : value) : bool :=
  match v with
  | VNone => false
  | VBool b => b
  | VInt z => negb (z =? 0)%Z
  | VStr s => match s with EmptyString => false | String _ _ => true end
  | VList l | VTuple l => match l with [] => false | _ :: _ => true end
  | VDict d => bool_decide (d ≠ ∅)
  end.

(** [a or b]: the first operand when it is truthy, the second otherwise. *)
Definition py_or (a b : value) : value := if truthy a then a else b.

(** ** Exceptions and the client collaborator *)

Inductive exn : Type :=
  | ValueError (msg : string)
  | TypeError (msg : string)
  | KeyError (key : string)
  | AttributeError (attr : string)
  | ApiError (status : string)
  | TransportError (msg : string).

Definition result (A : Type) : Type := exn + A.

(** What [client._get] hands back: a parsed JSON body, or (when the caller
    passed an [extract_body] that keeps it) the raw HTTP response, whose
    [iter_content()] yields the chunks of the body. *)
Inductive reply : Type :=
  | Body (v : value)
  | Raw (chunks : list string).

(** The one [extract_body] argument this module passes:
    [lambda response: response]. *)
Inductive extractor : Type := Identity.

(** One call of [client._get(path, params, extract_body=..,
    requests_kwargs=..)]; [None] is an argument left at its default. *)
Record request : Type := Request {
  req_path : string;
  req_params : gmap string value;
  req_extract_body : option extractor;
  req_requests_kwargs : option (gmap string value)
}.

(** The collaborator owns the transport: its answer to a request, given the
    requests made so far, is a reply or an exception of its own. *)
Record Client : Type := { respond : list request → request → result reply }.

(** Computations that may raise and that log every collaborator call. *)
Definition M (A : Type) : Type := list request → result A * list request.

#[export] Instance M_ret : MRet M := λ A x log, (inr x, log).

#[export] Instance M_bind : MBind M := λ A B f m log,
  match m log with
  | (inl e, log') => (inl e, log')
  | (inr x, log') => f x log'
  end.

Definition raise {A : Type} (e : exn) : M A := λ log, (inl e, log).

Definition lift {A : Type} (r : result A) : M A := λ log, (r, log).

Definition _get (client : Client) (path : string) (params : gmap string value)
    (extract_body : option extractor)
    (requests_kwargs : option (gmap string value)) : M reply :=
  λ log,
    let req := Request path params extract_body requests_kwargs in
    (respond client log req, log ++ [req]).

(** [response[key]] *)
Definition subscript (response : reply) (key : string) : result value :=
  match response with
  | Body (VDict d) =>
      match d !! key with
      | Some v => inr v
      | None => inl (KeyError key)
      end
  | Body (VStr _) | Body (VList _) | Body (VTuple _) =>
      inl (TypeError "indices must be integers")
  | Body _ | Raw _ => inl (TypeError "object is not subscriptable")
  end.

(** [response.iter_content()]: the lazy chunk sequence, as the list of its
    chunks. *)
Definition iter_content (response : reply) : result (list string) :=
  match response with
  | Raw chunks => inr chunks
  | Body _ => inl (AttributeError "iter_content")
  end.

(** ** Coordinate normalisation *)

Module convert.

(** A latitude or longitude component in decimal. *)
Definition component (v : value) : result string :=
  match v with
  | VInt z => inr (pretty z)
  | _ => inl (TypeError "expected a number")
  end.

Definition join (lat lng : value) : result string :=
  match component lat, component lng with
  | inr a, inr b => inr (a +:+ "," +:+ b)
  | inl e, _ => inl e
  | _, inl e => inl e
  end.

(** Modelled from the spec: [convert.latlng], which places.py imports from
    googlemaps/convert.py; that file is not among the sources.  Spec 3
    (Coordinate) and 6: the input is a string "lat,lng", a mapping with
    [lat] and [lng], or a two-element sequence; it is normalised to the
    canonical string "<lat>,<lng>" with decimal components, and any other
    shape fails at normalisation time.  Components are integers here, as
    in the spec's example (1 and 2); floating-point components are outside
    this model. *)
Definition latlng (arg : value) : result string :=
  match arg with
  | VStr s => inr s
  | VDict d =>
      match d !! "lat", d !! "lng" with
      | Some lat, Some lng => join lat lng
      | _, _ => inl (TypeError "expected a lat/lng dict or tuple")
      end
  | VList [lat; lng] | VTuple [lat; lng] => join lat lng
  | _ => inl (TypeError "expected a lat/lng dict or tuple")
  end.

End convert.

(** ** The operations of places.py *)

Section operations.

(** [convert.latlng] as places.py sees it: an imported function from a
    value to a string, which may raise. *)
Variable latlng : value → result string.

(** [places(client, query, location=None, radius=None, language=None,
    min_price=None, max_price=None, open_now=False, types=None,
    page_token=None)] *)
Definition places (client : Client) (query : value)
    (location radius language min_price max_price open_now types
     page_token : value) : M reply :=
  let params : gmap string value := {[ "query" := query ]} in
  params ← (if truthy location
            then s ← lift (latlng location);
                 mret (<["location" := VStr s]> params)
            else mret params);
  let params := if truthy radius
                then <["radius" := radius]> params else params in
  let params := if truthy language
                then <["language" := language]> params else params in
  let params := if truthy min_price
                then <["minprice" := min_price]> params else params in
  let params := if truthy max_price
                then <["maxprice" := max_price]> params else params in
  let params := if truthy open_now
                then <["opennow" := VStr "true"]> params else params in
  let params := if truthy page_token
                then <["pagetoken" := page_token]> params else params in
  _get client "/maps/api/place/textsearch/json" params None None.

(** [place(client, place_id, language=None)] *)
Definition place (client : Client) (place_id language : value) : M reply :=
  let params : gmap string value := {[ "placeid" := place_id ]} in
  let params := if truthy language
                then <["language" := language]> params else params in
  _get client "/maps/api/place/details/json" params None None.

(** [places_photo(client, photo_reference, max_width=None,
    max_height=None)] *)
Definition places_photo (client : Client)
    (photo_reference max_width max_height : value) : M (list string) :=
  if negb (truthy (py_or max_width max_height))
  then raise (ValueError "a max_width or max_height arg is required")
  else
    let params : gmap string value :=
      {[ "photoreference" := photo_reference ]} in
    let params := if truthy max_width
                  then <["maxwidth" := max_width]> params else params in
    let params := if truthy max_height
                  then <["maxheight" := max_height]> params else params in
    response ← _get client "/maps/api/place/photo" params
                 (Some Identity) (Some {[ "stream" := VBool true ]});
    lift (iter_content response).

(** [places_autocomplete(client, input_text, offset=None, location=None,
    radius=None, language=None)] *)
Definition places_autocomplete (client : Client)
    (input_text offset location radius language : value) : M value :=
  let params : gmap string value := {[ "input" := input_text ]} in
  let params := if truthy offset
                then <["offset" := offset]> params else params in
  params ← (if truthy location
            then s ← lift (latlng location);
                 mret (<["location" := VStr s]> params)
            else mret params);
  let params := if truthy radius
                then <["radius" := radius]> params else params in
  let params := if truthy language
                then <["language" := language]> params else params in
  response ← _get client "/maps/api/place/queryautocomplete/json" params
               None None;
  lift (subscript response "predictions").

End operations.

(** ** Observing a run *)

(** Running [m] after the calls in [log] makes exactly one further
    collaborator call, [req]. *)
Definition sends {A : Type} (m : M A) (log : list request)
    (req : request) : Prop :=
  (m log).2 = log ++ [req].

(** A stub collaborator that answers every request with [r]. *)
Definition stub_client (r : reply) : Client := {| respond := λ _ _, inr r |}.

(** ** The requests the operations build *)

(** The optional fields of a text search after [location], in the order
    the code writes them. *)
Definition places_fields (params : gmap string value)
    (radius language min_price max_price open_now page_token : value)
    : gmap string value :=
  let params := if truthy radius
                then <["radius" := radius]> params else params in
  let params := if truthy language
                then <["language" := language]> params else params in
  let params := if truthy min_price
                then <["minprice" := min_price]> params else params in
  let params := if truthy max_price
                then <["maxprice" := max_price]> params else params in
  let params := if truthy open_now
                then <["opennow" := VStr "true"]> params else params in
  if truthy page_token
  then <["pagetoken" := page_token]> params else params.

Definition places_request (located : gmap string value)
    (radius language min_price max_price open_now page_token : value)
    : request :=
  Request "/maps/api/place/textsearch/json"
    (places_fields located radius language min_price max_price open_now
       page_token)
    None None.

Definition autocomplete_request (params : gmap string value)
    (radius language : value) : request :=
  Request "/maps/api/place/queryautocomplete/json"
    (let params := if truthy radius
                   then <["radius" := radius]> params else params in
     if truthy language then <["language" := language]> params else params)
    None None.

Definition autocomplete_result (r : result reply) : result value :=
  match r with
  | inl e => inl e
  | inr response => subscript response "predictions"
  end.

Definition photo_request (photo_reference max_width max_height : value)
    : request :=
  Request "/maps/api/place/photo"
    (let params : gmap string value :=
       {[ "photoreference" := photo_reference ]} in
     let params := if truthy max_width
                   then <["maxwidth" := max_width]> params else params in
     if truthy max_height
     then <["maxheight" := max_height]> params else params)
    (Some Identity) (Some {[ "stream" := VBool true ]}).

Definition photo_result (r : result reply) : result (list string) :=
  match r with
  | inl e => inl e
  | inr response => iter_content response
  end.

(** ** Stub collaborators and the requests of the scenarios *)

(** The accepted shapes of the integer coordinate (lat, lng): the string,
    the mapping and the two-element sequence (a tuple or a list). *)
Definition coordinate_shapes (lat lng : Z) : list value :=
  [ VStr (pretty lat +:+ "," +:+ pretty lng);
    VDict {[ "lat" := VInt lat; "lng" := VInt lng ]};
    VTuple [VInt lat; VInt lng];
    VList [VInt lat; VInt lng] ].

(** A collaborator whose every answer is the empty envelope. *)
Definition empty_client : Client := stub_client (Body (VDict ∅)).

(** The envelope [{"predictions": [{"description": "Pizza Place"}]}] and a
    stub collaborator that returns it. *)
Definition pizza_envelope : gmap string value :=
  {[ "predictions" :=
       VList [VDict {[ "description" := VStr "Pizza Place" ]}] ]}.

Definition pizza_client : Client := stub_client (Body (VDict pizza_envelope)).

Definition pizza_request : request :=
  Request "/maps/api/place/queryautocomplete/json"
    {[ "input" := VStr "pizza near New York" ]} None None.

Definition open_restaurants_request : request :=
  Request "/maps/api/place/textsearch/json"
    {[ "query" := VStr "restaurant"; "opennow" := VStr "true" ]} None None.

Definition next_page_request : request :=
  Request "/maps/api/place/textsearch/json"
    {[ "query" := VStr "restaurant"; "pagetoken" := VStr "token-2" ]}
    None None.


(** ** Further observations of a run *)

(** The collaborator calls that running [m] after [log] adds. *)
Definition sent {A : Type} (m : M A) (log : list request) : list request :=
  drop (length log) (m log).2.

(** The key [k] when [b] holds, no key otherwise. *)
Definition key_if (b : bool) (k : string) : gset string :=
  if b then {[ k ]} else ∅.

(** A stub collaborator that answers every request with the raw response
    whose body comes in [chunks]. *)
Definition raw_client (chunks : list string) : Client :=
  stub_client (Raw chunks).

(** A collaborator whose every call raises [e]. *)
Definition failing_client (e : exn) : Client :=
  {| respond := λ _ _, inl e |}.

(** ** noxfile.py: the nox sessions *)

Module noxfile.

(** What a session function asks of the nox session object:
    [session.install(args..)], [session.run(args.., external=..)] and
    [session.notify(target)]. *)
Inductive action : Type :=
  | Install (args : list string)
  | Run (args : list string) (external : bool)
  | Notify (target : string).

Inductive failure : Type :=
  | CommandFailed (reason : string)
  | OtherFailure (reason : string).

(** The session object belongs to nox: whether an action, after the
    actions performed so far, returns ([None]) or raises. *)
Record Session : Type :=
  { perform : list action → action → option failure }.

(** Session functions may raise and log every action they ask for. *)
Definition N (A : Type) : Type :=
  list action → (failure + A) * list action.

#[export] Instance N_ret : MRet N := λ A x log, (inr x, log).

#[export] Instance N_bind : MBind N := λ A B f m log,
  match m log with
  | (inl e, log') => (inl e, log')
  | (inr x, log') => f x log'
  end.

Definition act (session : Session) (a : action) : N () :=
  λ log,
    (match perform session log a with
     | Some e => inl e
     | None => inr ()
     end,
     log ++ [a]).

Definition install (session : Session) (args : list string) : N () :=
  act session (Install args).

(** [external] defaults to [False]. *)
Definition run (session : Session) (args : list string)
    (external : bool) : N () :=
  act session (Run args external).

Definition notify (session : Session) (target : string) : N () :=
  act session (Notify target).

Definition _install_dev_packages (session : Session) : N () :=
  install session ["-e"; "."].

Definition _install_test_dependencies (session : Session) : N () :=
  install session ["-r"; "test_requirements.txt"].

Definition _install_doc_dependencies (session : Session) : N () :=
  install session ["sphinx"].

Definition tests (session : Session) : N () :=
  _install_dev_packages session;;
  _install_test_dependencies session;;
  install session ["pytest"];;
  run session ["pytest"] false;;
  notify session "cover".

Definition cover (session : Session) : N () :=
  install session ["coverage"];;
  install session ["codecov"];;
  run session ["coverage"; "report"; "--show-missing"] false;;
  run session ["codecov"] false;;
  run session ["coverage"; "erase"] false.

Definition docs (session : Session) : N () :=
  _install_dev_packages session;;
  _install_doc_dependencies session;;
  run session ["rm"; "-rf"; "docs/_build"] true;;
  let sphinx_args :=
    ["-a"; "-E"; "-b"; "html"; "-d"; "docs/_build/doctrees"; "docs";
     "docs/_build/html"] in
  let sphinx_cmd := "sphinx-build" in
  run session (sphinx_cmd :: sphinx_args) false.

(** The [python] argument of [@nox.session]: one version or a list. *)
Inductive pythons : Type :=
  | Version (v : string)
  | Versions (vs : list string).

(** The sessions that the [@nox.session] decorators register: the name
    of the function, the [python] argument of the decorator when it has
    one, the function. *)
Definition sessions : list (string * option pythons * (Session → N ())) :=
  [ ("tests", Some (Versions ["2.7"; "3.5"; "3.6"; "3.7"]), tests);
    ("cover", None, cover);
    ("docs", Some (Version "2.7"), docs) ].

(** The actions that running [m] after [log] adds. *)
Definition performed {A : Type} (m : N A) (log : list action)
    : list action :=
  drop (length log) (m log).2.

(** Asking for the actions of [script] one after the other, up to the
    first that raises. *)
Fixpoint perform_all (session : Session) (script : list action) : N () :=
  match script with
  | [] => mret ()
  | a :: rest => act session a;; perform_all session rest
  end.

Definition tests_script : list action :=
  [ Install ["-e"; "."];
    Install ["-r"; "test_requirements.txt"];
    Install ["pytest"];
    Run ["pytest"] false;
    Notify "cover" ].

Definition cover_script : list action :=
  [ Install ["coverage"];
    Install ["codecov"];
    Run ["coverage"; "report"; "--show-missing"] false;
    Run ["codecov"] false;
    Run ["coverage"; "erase"] false ].

Definition docs_script : list action :=
  [ Install ["-e"; "."];
    Install ["sphinx"];
    Run ["rm"; "-rf"; "docs/_build"] true;
    Run ["sphinx-build"; "-a"; "-E"; "-b"; "html"; "-d";
         "docs/_build/doctrees"; "docs"; "docs/_build/html"] false ].

(** The full sequence of actions of each registered session. *)
Definition scripts : list (string * list action) :=
  [ ("tests", tests_script); ("cover", cover_script);
    ("docs", docs_script) ].

(** A session object on which everything returns. *)
Definition fine_session : Session := {| perform := λ _ _, None |}.

(** A session object on which running [pytest] fails and everything else
    returns. *)
Definition red_session : Session :=
  {| perform := λ _ a,
       match a with
       | Run ["pytest"] _ => Some (CommandFailed "pytest")
       | _ => None
       end |}.

End noxfile.

(** ** Requests of further runs *)

Definition unchecked_filters_request : request :=
  Request "/maps/api/place/textsearch/json"
    {[ "query" := VStr "bar"; "radius" := VInt (-1);
       "language" := VStr "fr"; "minprice" := VInt 7;
       "maxprice" := VInt 9 ]} None None.

Definition language_token_request : request :=
  Request "/maps/api/place/textsearch/json"
    {[ "query" := VStr "bar"; "language" := VStr "fr";
       "pagetoken" := VStr "token-2" ]} None None.

Definition photo_width_request : request :=
  Request "/maps/api/place/photo"
    {[ "photoreference" := VStr "ref"; "maxwidth" := VInt 100 ]}
    (Some Identity) (Some {[ "stream" := VBool true ]}).

Definition photo_both_request : request :=
  Request "/maps/api/place/photo"
    {[ "photoreference" := VStr "ref"; "maxwidth" := VInt 100;
       "maxheight" := VInt 200 ]}
    (Some Identity) (Some {[ "stream" := VBool true ]}).

Definition google_request : request :=
  Request "/maps/api/place/queryautocomplete/json"
    {[ "input" := VStr "Google"; "offset" := VInt 3 ]} None None.

(** ** How each operation runs *)

Section runs.

Context (latlng : value → result string) (client : Client).

Lemma places_run query location radius language min_price max_price
    open_now types page_token log :
  places latlng client query location radius language min_price max_price
    open_now types page_token log =
  if truthy location then
    match latlng location with
    | inl e => (inl e, log)
    | inr s =>
        let req := places_request
                     (<["location" := VStr s]> {[ "query" := query ]})
                     radius language min_price max_price open_now
                     page_token in
        (respond client log req, log ++ [req])
    end
  else
    let req := places_request {[ "query" := query ]}
                 radius language min_price max_price open_now page_token in
    (respond client log req, log ++ [req]).
Proof.
  unfold places, places_request, places_fields, mbind, M_bind, lift, _get.
  destruct (truthy location); [destruct (latlng location) |]; reflexivity.
Qed.

Lemma places_autocomplete_run input_text offset location radius language
    log :
  places_autocomplete latlng client input_text offset location radius
    language log =
  let params : gmap string value := {[ "input" := input_text ]} in
  let params := if truthy offset
                then <["offset" := offset]> params else params in
  if truthy location then
    match latlng location with
    | inl e => (inl e, log)
    | inr s =>
        let req := autocomplete_request (<["location" := VStr s]> params)
                     radius language in
        (autocomplete_result (respond client log req), log ++ [req])
    end
  else
    let req := autocomplete_request params radius language in
    (autocomplete_result (respond client log req), log ++ [req]).
Proof.
  unfold places_autocomplete, autocomplete_request, autocomplete_result,
    mbind, M_bind, lift, _get.
  destruct (truthy location); [destruct (latlng location) |]; cbn;
    try reflexivity;
    match goal with
    | |- context [respond client log ?r] =>
        destruct (respond client log r); reflexivity
    end.
Qed.

Lemma places_photo_run photo_reference max_width max_height log :
  places_photo client photo_reference max_width max_height log =
  if truthy max_width || truthy max_height then
    let req := photo_request photo_reference max_width max_height in
    (photo_result (respond client log req), log ++ [req])
  else
    (inl (ValueError "a max_width or max_height arg is required"), log).
Proof.
  unfold places_photo, py_or, photo_request, photo_result, mbind, M_bind,
    lift, _get, raise.
  destruct (truthy max_width) eqn:Hw; cbn.
  - rewrite Hw. cbn.
    match goal with
    | |- context [respond client log ?r] =>
        destruct (respond client log r); reflexivity
    end.
  - destruct (truthy max_height); cbn; [| reflexivity].
    match goal with
    | |- context [respond client log ?r] =>
        destruct (respond client log r); reflexivity
    end.
Qed.

Lemma place_run place_id language log :
  place client place_id language log =
  let req := Request "/maps/api/place/details/json"
               (if truthy language
                then <["language" := language]> {[ "placeid" := place_id ]}
                else {[ "placeid" := place_id ]})
               None None in
  (respond client log req, log ++ [req]).
Proof. reflexivity. Qed.

(** A run that raised before reaching the collaborator made no call. *)
Lemma log_not_extended (log : list request) (req : request) :
  log ≠ log ++ [req].
Proof.
  intros H. apply (f_equal length) in H. rewrite length_app in H.
  cbn in H. lia.
Qed.

Lemma sends_inv (log : list request) (req req' : request) :
  log ++ [req'] = log ++ [req] → req' = req.
Proof. intros H. apply app_inv_head in H. congruence. Qed.

(** What a text search sent, when it sent something. *)
Lemma places_sends_inv query location radius language min_price max_price
    open_now types page_token log req :
  sends (places latlng client query location radius language min_price
           max_price open_now types page_token) log req →
  ∃ located : gmap string value,
    located !! "query" = Some query ∧
    (∀ k, k ≠ "query" → k ≠ "location" → located !! k = None) ∧
    req = places_request located radius language min_price max_price
            open_now page_token ∧
    places latlng client query location radius language min_price
      max_price open_now types page_token log
    = (respond client log req, log ++ [req]).
Proof.
  unfold sends. rewrite places_run.
  destruct (truthy location); [destruct (latlng location) as [e|s] |]; cbn.
  - intros H. by apply log_not_extended in H.
  - intros H%sends_inv. subst req. eexists. split_and!; [| | done..].
    + by simplify_map_eq.
    + intros k ? ?. by simplify_map_eq.
  - intros H%sends_inv. subst req. eexists. split_and!; [| | done..].
    + by simplify_map_eq.
    + intros k ? ?. by simplify_map_eq.
Qed.

End runs.

(** ** Properties of the parameter mappings *)

Section properties.

Context (latlng : value → result string) (client : Client).

Local Ltac fields :=
  unfold places_request, places_fields, photo_request, autocomplete_request;
  cbn;
  repeat match goal with
         | |- context [if truthy ?v then _ else _] =>
             destruct (truthy v) eqn:?
         end;
  simplify_map_eq; try done.

Lemma places_fields_opennow located radius language min_price max_price
    open_now page_token :
  located !! "opennow" = None →
  places_fields located radius language min_price max_price open_now
    page_token !! "opennow"
  = if truthy open_now then Some (VStr "true") else None.
Proof. intros H. fields. Qed.

Lemma places_fields_pagetoken located radius language min_price max_price
    open_now page_token :
  located !! "pagetoken" = None →
  places_fields located radius language min_price max_price open_now
    page_token !! "pagetoken"
  = if truthy page_token then Some page_token else None.
Proof. intros H. fields. Qed.

Lemma places_fields_minprice located radius language min_price max_price
    open_now page_token :
  located !! "minprice" = None →
  places_fields located radius language min_price max_price open_now
    page_token !! "minprice"
  = if truthy min_price then Some min_price else None.
Proof. intros H. fields. Qed.

Lemma places_fields_maxprice located radius language min_price max_price
    open_now page_token :
  located !! "maxprice" = None →
  places_fields located radius language min_price max_price open_now
    page_token !! "maxprice"
  = if truthy max_price then Some max_price else None.
Proof. intros H. fields. Qed.


Lemma places_fields_location located radius language min_price max_price
    open_now page_token :
  places_fields located radius language min_price max_price open_now
    page_token !! "location"
  = located !! "location".
Proof. fields. Qed.

Lemma autocomplete_request_location params radius language :
  req_params (autocomplete_request params radius language) !! "location"
  = params !! "location".
Proof. fields. Qed.

Lemma places_autocomplete_sends_inv input_text offset location radius
    language log req :
  sends (places_autocomplete latlng client input_text offset location
           radius language) log req →
  places_autocomplete latlng client input_text offset location radius
    language log
  = (autocomplete_result (respond client log req), log ++ [req]).
Proof.
  unfold sends. rewrite places_autocomplete_run.
  destruct (truthy location); [destruct (latlng location) as [e|s] |]; cbn.
  - intros H. by apply log_not_extended in H.
  - by intros ->%sends_inv.
  - by intros ->%sends_inv.
Qed.



(** C4.  A text search whose location is absent (falsy) or accepted by
    [convert.latlng] sends its request, and in that request
    [open_now=True] gives the entry [opennow] with the string "true",
    [open_now=False] gives no [opennow] entry, and the value "false" is
    never sent. *)
Theorem places_opennow query location radius language min_price max_price
    (open_now : bool) types page_token log :
  truthy location = false ∨ (∃ s, latlng location = inr s) →
  ∃ req,
    places latlng client query location radius language min_price
      max_price (VBool open_now) types page_token log
    = (respond client log req, log ++ [req])
    ∧ req_params req !! "opennow"
      = (if open_now then Some (VStr "true") else None)
    ∧ req_params req !! "opennow" ≠ Some (VStr "false").
Proof.
  intros Hloc. rewrite places_run.
  assert (∀ located : gmap string value,
            located !! "opennow" = None →
            let req := places_request located radius language min_price
                         max_price (VBool open_now) page_token in
            req_params req !! "opennow"
            = (if open_now then Some (VStr "true") else None)
            ∧ req_params req !! "opennow" ≠ Some (VStr "false")) as Hentry.
  { intros located Hfree. cbn. rewrite places_fields_opennow by done.
    cbn. by destruct open_now. }
  destruct (truthy location).
  - destruct Hloc as [Hfalsy | [s Hs]]; [done |]. rewrite Hs.
    eexists. split; [done |]. apply Hentry. by simplify_map_eq.
  - eexists. split; [done |]. apply Hentry. by simplify_map_eq.
Qed.

(** C5.  [place(client, "abc123", language="en")] makes exactly one
    collaborator call, with the details path and the mapping
    [{"placeid": "abc123", "language": "en"}], and returns the
    collaborator's outcome as it is; without a language the mapping is
    [{"placeid": place_id}] alone. *)
Theorem place_details_request :
  (∀ log,
     let req := Request "/maps/api/place/details/json"
                  {[ "placeid" := VStr "abc123"; "language" := VStr "en" ]}
                  None None in
     place client (VStr "abc123") (VStr "en") log
     = (respond client log req, log ++ [req]))
  ∧ (∀ place_id log,
       let req := Request "/maps/api/place/details/json"
                    {[ "placeid" := place_id ]} None None in
       place client place_id VNone log
       = (respond client log req, log ++ [req])).
Proof.
  split; intros; rewrite place_run; cbn; [| done].
  replace (<["language" := VStr "en"]> {[ "placeid" := VStr "abc123" ]})
    with ({[ "placeid" := VStr "abc123"; "language" := VStr "en" ]}
            : gmap string value); [done |].
  apply map_eq. intros k.
  destruct (decide (k = "language")) as [-> | ?];
    [| destruct (decide (k = "placeid")) as [-> | ?]]; by simplify_map_eq.
Qed.

(** C6.  [places_photo] with [max_width] absent and a [max_height] set
    sends a mapping that holds [maxheight] with the given value and
    [photoreference], and has no [maxwidth]. *)
Theorem places_photo_only_max_height photo_reference max_height log :
  truthy max_height = true →
  ∃ req,
    sends (places_photo client photo_reference VNone max_height) log req ∧
    req_params req !! "maxheight" = Some max_height ∧
    req_params req !! "photoreference" = Some photo_reference ∧
    req_params req !! "maxwidth" = None.
Proof.
  intros Hh. exists (photo_request photo_reference VNone max_height).
  unfold sends. rewrite places_photo_run. cbn. rewrite Hh. cbn.
  split_and!; by simplify_map_eq.
Qed.

(** C7.  A text search whose location is absent (falsy) or accepted by
    [convert.latlng] sends its request, and in that request the
    [pagetoken] entry is the supplied token when one is supplied (truthy)
    and is missing otherwise, whatever the other arguments are. *)
Theorem places_pagetoken query location radius language min_price
    max_price open_now types page_token log :
  truthy location = false ∨ (∃ s, latlng location = inr s) →
  ∃ req,
    places latlng client query location radius language min_price
      max_price open_now types page_token log
    = (respond client log req, log ++ [req])
    ∧ req_params req !! "pagetoken"
      = (if truthy page_token then Some page_token else None).
Proof.
  intros Hloc. rewrite places_run.
  destruct (truthy location).
  - destruct Hloc as [Hfalsy | [s Hs]]; [done |]. rewrite Hs.
    eexists. split; [done |]. cbn.
    rewrite places_fields_pagetoken; [done | by simplify_map_eq].
  - eexists. split; [done |]. cbn.
    rewrite places_fields_pagetoken; [done | by simplify_map_eq].
Qed.


(** C9.  [places_photo] with [max_width=0] and [max_height=0] raises the
    same [ValueError], with no call, as with both absent; and a size
    hint of 0 behaves as an absent one: the run either makes no call or
    sends a mapping without that hint's key. *)
Theorem places_photo_zero_size_hint photo_reference log :
  places_photo client photo_reference (VInt 0) (VInt 0) log
  = (inl (ValueError "a max_width or max_height arg is required"), log)
  ∧ places_photo client photo_reference (VInt 0) (VInt 0) log
    = places_photo client photo_reference VNone VNone log
  ∧ (∀ max_height,
       places_photo client photo_reference (VInt 0) max_height log
       = places_photo client photo_reference VNone max_height log
       ∧ ((places_photo client photo_reference (VInt 0) max_height log).2
          = log
          ∨ ∃ req,
              sends (places_photo client photo_reference (VInt 0)
                       max_height) log req ∧
              req_params req !! "maxwidth" = None))
  ∧ (∀ max_width,
       places_photo client photo_reference max_width (VInt 0) log
       = places_photo client photo_reference max_width VNone log
       ∧ ((places_photo client photo_reference max_width (VInt 0) log).2
          = log
          ∨ ∃ req,
              sends (places_photo client photo_reference max_width
                       (VInt 0)) log req ∧
              req_params req !! "maxheight" = None)).
Proof.
  split_and!.
  - by rewrite places_photo_run.
  - by rewrite !places_photo_run.
  - intros max_height. split; [by rewrite !places_photo_run |].
    unfold sends. rewrite places_photo_run. cbn.
    destruct (truthy max_height) eqn:Hh; cbn; [right | by left].
    eexists. split; [done |]. cbn. rewrite Hh. by simplify_map_eq.
  - intros max_width. split; [by rewrite !places_photo_run |].
    unfold sends. rewrite places_photo_run. cbn.
    destruct (truthy max_width) eqn:Hw; cbn; [right | by left].
    eexists. split; [done |]. cbn. rewrite Hw. by simplify_map_eq.
Qed.


End properties.

(** ** Coordinates on the wire *)

Lemma latlng_shapes (lat lng : Z) :
  Forall (λ coordinate,
            truthy coordinate = true ∧
            convert.latlng coordinate
            = inr (pretty lat +:+ "," +:+ pretty lng))
    (coordinate_shapes lat lng).
Proof.
  unfold coordinate_shapes.
  repeat (apply Forall_cons; split; [split |]); try apply Forall_nil.
  all: try reflexivity.
  cbn. by destruct (pretty lat).
Qed.

(** C2.  The string "1,2", the mapping [{lat: 1, lng: 2}] and the
    sequence [(1, 2)] all normalise to the string "1,2", and so do the
    three shapes of any integer coordinate to its "lat,lng"; a text
    search and an autocomplete given any of these shapes send the same
    [location] entry, "1,2". *)
Theorem latlng_canonical :
  Forall (λ coordinate, convert.latlng coordinate = inr "1,2")
    [ VStr "1,2";
      VDict {[ "lat" := VInt 1; "lng" := VInt 2 ]};
      VTuple [VInt 1; VInt 2];
      VList [VInt 1; VInt 2] ]
  ∧ (∀ lat lng : Z,
       Forall (λ coordinate,
                 convert.latlng coordinate
                 = inr (pretty lat +:+ "," +:+ pretty lng))
         (coordinate_shapes lat lng))
  ∧ (∀ client query radius language min_price max_price open_now types
       page_token log,
       Forall (λ coordinate,
                 ∃ req,
                   places convert.latlng client query coordinate radius
                     language min_price max_price open_now types
                     page_token log
                   = (respond client log req, log ++ [req]) ∧
                   req_params req !! "location" = Some (VStr "1,2"))
         (coordinate_shapes 1 2))
  ∧ (∀ client input_text offset radius language log,
       Forall (λ coordinate,
                 ∃ req,
                   places_autocomplete convert.latlng client input_text
                     offset coordinate radius language log
                   = (autocomplete_result (respond client log req),
                      log ++ [req]) ∧
                   req_params req !! "location" = Some (VStr "1,2"))
         (coordinate_shapes 1 2)).
Proof.
  split_and!.
  - repeat constructor.
  - intros lat lng. eapply Forall_impl; [apply latlng_shapes |].
    by intros coordinate [_ ?].
  - intros. eapply Forall_impl; [apply (latlng_shapes 1 2) |].
    intros coordinate [Htruthy Hnorm]. rewrite places_run, Htruthy, Hnorm.
    cbn. eexists. split; [done |]. unfold places_request; cbn.
    rewrite places_fields_location.
    by simplify_map_eq.
  - intros. eapply Forall_impl; [apply (latlng_shapes 1 2) |].
    intros coordinate [Htruthy Hnorm].
    rewrite places_autocomplete_run, Htruthy, Hnorm.
    cbn. eexists. split; [done |].
    rewrite autocomplete_request_location. by simplify_map_eq.
Qed.

(** ** The scenarios, run on stub collaborators *)


(** A search for restaurants that are open now. *)
Lemma places_opennow_restaurant :
  (truthy VNone = false ∨ ∃ s, convert.latlng VNone = inr s)
  ∧ sends (places convert.latlng empty_client (VStr "restaurant") VNone
             VNone VNone VNone VNone (VBool true) VNone VNone) []
      open_restaurants_request
  ∧ ∃ req,
      places convert.latlng empty_client (VStr "restaurant") VNone VNone
        VNone VNone VNone (VBool true) VNone VNone []
      = (respond empty_client [] req, [] ++ [req])
      ∧ req_params req !! "opennow" = Some (VStr "true")
      ∧ req_params req !! "opennow" ≠ Some (VStr "false").
Proof.
  split; [left; reflexivity |]. split; [reflexivity |].
  apply (places_opennow convert.latlng empty_client (VStr "restaurant")
           VNone VNone VNone VNone VNone true VNone VNone []).
  left. reflexivity.
Defined.

(** A photo fetched with [max_height=100] alone. *)
Lemma places_photo_height_100 :
  truthy (VInt 100) = true
  ∧ ∃ req,
      sends (places_photo empty_client (VStr "ref") VNone (VInt 100)) []
        req ∧
      req_params req !! "maxheight" = Some (VInt 100) ∧
      req_params req !! "photoreference" = Some (VStr "ref") ∧
      req_params req !! "maxwidth" = None.
Proof.
  split; [reflexivity |].
  apply (places_photo_only_max_height empty_client (VStr "ref") (VInt 100)
           []).
  reflexivity.
Defined.

(** The second page of a search. *)
Lemma places_pagetoken_next_page :
  (truthy VNone = false ∨ ∃ s, convert.latlng VNone = inr s)
  ∧ sends (places convert.latlng empty_client (VStr "restaurant") VNone
             VNone VNone VNone VNone (VBool false) VNone (VStr "token-2"))
      [] next_page_request
  ∧ ∃ req,
      places convert.latlng empty_client (VStr "restaurant") VNone VNone
        VNone VNone VNone (VBool false) VNone (VStr "token-2") []
      = (respond empty_client [] req, [] ++ [req])
      ∧ req_params req !! "pagetoken" = Some (VStr "token-2").
Proof.
  split; [left; reflexivity |]. split; [reflexivity |].
  apply (places_pagetoken convert.latlng empty_client (VStr "restaurant")
           VNone VNone VNone VNone VNone (VBool false) VNone
           (VStr "token-2") []).
  left. reflexivity.
Defined.





(** ** More on what the operations send and return *)

Set Warnings "-clear-no-such-hyp".

Section requests.

Context (latlng : value → result string) (client : Client).

Local Ltac by_fields :=
  unfold places_request, places_fields, photo_request, autocomplete_request;
  cbn;
  repeat match goal with
         | |- context [if truthy ?v then _ else _] =>
             destruct (truthy v) eqn:?
         end;
  simplify_map_eq; try done.

Lemma places_fields_radius located radius language min_price max_price
    open_now page_token :
  located !! "radius" = None →
  places_fields located radius language min_price max_price open_now
    page_token !! "radius"
  = if truthy radius then Some radius else None.
Proof. intros H. by_fields. Qed.

Lemma places_fields_language located radius language min_price max_price
    open_now page_token :
  located !! "language" = None →
  places_fields located radius language min_price max_price open_now
    page_token !! "language"
  = if truthy language then Some language else None.
Proof. intros H. by_fields. Qed.

Lemma places_fields_dom located radius language min_price max_price
    open_now page_token :
  dom (places_fields located radius language min_price max_price open_now
         page_token)
  = dom located ∪ key_if (truthy radius) "radius"
    ∪ key_if (truthy language) "language"
    ∪ key_if (truthy min_price) "minprice"
    ∪ key_if (truthy max_price) "maxprice"
    ∪ key_if (truthy open_now) "opennow"
    ∪ key_if (truthy page_token) "pagetoken".
Proof.
  unfold places_fields, key_if.
  destruct (truthy radius), (truthy language), (truthy min_price),
    (truthy max_price), (truthy open_now), (truthy page_token);
    rewrite ?dom_insert_L; set_solver.
Qed.

(** The located mapping of a text search that reached the collaborator. *)
Lemma places_location_inv query location radius language min_price
    max_price open_now types page_token log req :
  sends (places latlng client query location radius language min_price
           max_price open_now types page_token) log req →
  (truthy location = false ∧
   req = places_request {[ "query" := query ]} radius language min_price
           max_price open_now page_token)
  ∨ (∃ s, truthy location = true ∧ latlng location = inr s ∧
          req = places_request
                  (<["location" := VStr s]> {[ "query" := query ]})
                  radius language min_price max_price open_now page_token).
Proof.
  unfold sends. rewrite places_run.
  destruct (truthy location); [destruct (latlng location) as [e|s] |]; cbn.
  - intros H. by apply log_not_extended in H.
  - intros <-%sends_inv. right. by exists s.
  - intros <-%sends_inv. by left.
Qed.

(** The located mapping of an autocomplete that reached the collaborator. *)
Lemma places_autocomplete_location_inv input_text offset location radius
    language log req :
  sends (places_autocomplete latlng client input_text offset location
           radius language) log req →
  let params : gmap string value :=
    if truthy offset
    then <["offset" := offset]> {[ "input" := input_text ]}
    else {[ "input" := input_text ]} in
  (truthy location = false ∧
   req = autocomplete_request params radius language)
  ∨ (∃ s, truthy location = true ∧ latlng location = inr s ∧
          req = autocomplete_request (<["location" := VStr s]> params)
                  radius language).
Proof.
  unfold sends. rewrite places_autocomplete_run.
  destruct (truthy location); [destruct (latlng location) as [e|s] |]; cbn.
  - intros H. by apply log_not_extended in H.
  - intros <-%sends_inv. right. by exists s.
  - intros <-%sends_inv. by left.
Qed.

Lemma places_photo_request_inv photo_reference max_width max_height log
    req :
  sends (places_photo client photo_reference max_width max_height) log req →
  truthy max_width || truthy max_height = true ∧
  req = photo_request photo_reference max_width max_height ∧
  places_photo client photo_reference max_width max_height log
  = (photo_result (respond client log req), log ++ [req]).
Proof.
  unfold sends. rewrite places_photo_run.
  destruct (truthy max_width || truthy max_height); cbn.
  - by intros <-%sends_inv.
  - intros H. by apply log_not_extended in H.
Qed.

(** X1.  The [types] argument of a text search is never read: the run is
    the same whatever is passed for it. *)
Theorem places_ignores_types query location radius language min_price
    max_price open_now types types' page_token log :
  places latlng client query location radius language min_price max_price
    open_now types page_token log
  = places latlng client query location radius language min_price
      max_price open_now types' page_token log.
Proof. by rewrite !places_run. Qed.

(** X2.  A text search passes [radius], [language], [min_price] and
    [max_price] through as they are, unchecked: each is sent under its
    key when it is truthy and left out otherwise. *)
Theorem places_passes_filters_through query location radius language
    min_price max_price open_now types page_token log req :
  sends (places latlng client query location radius language min_price
           max_price open_now types page_token) log req →
  req_params req !! "radius" = (if truthy radius then Some radius else None)
  ∧ req_params req !! "language"
    = (if truthy language then Some language else None)
  ∧ req_params req !! "minprice"
    = (if truthy min_price then Some min_price else None)
  ∧ req_params req !! "maxprice"
    = (if truthy max_price then Some max_price else None).
Proof.
  intros (located & _ & Hfree & -> & _)%places_sends_inv.
  unfold places_request; cbn.
  rewrite places_fields_radius, places_fields_language,
    places_fields_minprice, places_fields_maxprice by (by apply Hfree).
  done.
Qed.

(** X3.  What a text search does with its location: a falsy one (None,
    an empty string or sequence) is left out and the request is sent
    whatever [convert.latlng] would make of it; a truthy one that
    [convert.latlng] accepts is sent as the string [convert.latlng]
    returned; a truthy one that it rejects stops the search with that
    exception before any call. *)
Theorem places_location_entry query location radius language min_price
    max_price open_now types page_token log :
  (truthy location = false ∧
   ∃ req,
     places latlng client query location radius language min_price
       max_price open_now types page_token log
     = (respond client log req, log ++ [req])
     ∧ req_params req !! "location" = None)
  ∨ (truthy location = true ∧
     ∃ s req,
       latlng location = inr s
       ∧ places latlng client query location radius language min_price
           max_price open_now types page_token log
         = (respond client log req, log ++ [req])
       ∧ req_params req !! "location" = Some (VStr s))
  ∨ (truthy location = true ∧
     ∃ e,
       latlng location = inl e
       ∧ places latlng client query location radius language min_price
           max_price open_now types page_token log
         = (inl e, log)).
Proof.
  rewrite places_run.
  destruct (truthy location); [destruct (latlng location) as [e|s] |].
  - right; right. split; [done |]. by exists e.
  - right; left. split; [done |]. eexists s, _. split_and!; [done.. |].
    cbn. rewrite places_fields_location. by simplify_map_eq.
  - left. split; [done |]. eexists. split; [done |].
    cbn. rewrite places_fields_location. by simplify_map_eq.
Qed.

(** X4.  The keys of the mapping a text search sends are [query] and the
    keys of the truthy optional arguments, and no others; in particular
    there is never a [types] key. *)
Theorem places_request_keys query location radius language min_price
    max_price open_now types page_token log req :
  sends (places latlng client query location radius language min_price
           max_price open_now types page_token) log req →
  dom (req_params req)
  = {[ "query" ]} ∪ key_if (truthy location) "location"
    ∪ key_if (truthy radius) "radius"
    ∪ key_if (truthy language) "language"
    ∪ key_if (truthy min_price) "minprice"
    ∪ key_if (truthy max_price) "maxprice"
    ∪ key_if (truthy open_now) "opennow"
    ∪ key_if (truthy page_token) "pagetoken"
  ∧ "types" ∉ dom (req_params req).
Proof.
  intros Hsend.
  assert (dom (req_params req)
          = {[ "query" ]} ∪ key_if (truthy location) "location"
            ∪ key_if (truthy radius) "radius"
            ∪ key_if (truthy language) "language"
            ∪ key_if (truthy min_price) "minprice"
            ∪ key_if (truthy max_price) "maxprice"
            ∪ key_if (truthy open_now) "opennow"
            ∪ key_if (truthy page_token) "pagetoken") as Hdom.
  { apply places_location_inv in Hsend
      as [[Hfalsy ->] | (s & Htruthy & Hs & ->)];
      unfold places_request; cbn; rewrite places_fields_dom.
    - rewrite Hfalsy, dom_singleton_L. unfold key_if at 1. set_solver.
    - rewrite Htruthy, dom_insert_L, dom_singleton_L. unfold key_if at 1.
      set_solver. }
  split; [done |]. rewrite Hdom. unfold key_if.
  destruct (truthy location), (truthy radius), (truthy language),
    (truthy min_price), (truthy max_price), (truthy open_now),
    (truthy page_token); set_solver.
Qed.

(** X5.  [open_now] is only tested for truth: any truthy value, of any
    type, is sent as the string "true", and any falsy one as nothing. *)
Theorem places_opennow_any_truthy query location radius language min_price
    max_price open_now types page_token log req :
  sends (places latlng client query location radius language min_price
           max_price open_now types page_token) log req →
  req_params req !! "opennow"
  = (if truthy open_now then Some (VStr "true") else None).
Proof.
  intros (located & _ & Hfree & -> & _)%places_sends_inv.
  unfold places_request; cbn.
  by rewrite places_fields_opennow by (by apply Hfree).
Qed.

End requests.

Section outcomes.

Context (latlng : value → result string) (client : Client).

Lemma sent_one {A : Type} (m : M A) (log : list request) (r : result A)
    (req : request) :
  m log = (r, log ++ [req]) → sent m log = [req].
Proof. intros H. unfold sent. rewrite H. cbn. apply drop_app_length. Qed.

Lemma sent_none {A : Type} (m : M A) (log : list request) (r : result A) :
  m log = (r, log) → sent m log = [].
Proof. intros H. unfold sent. rewrite H. cbn. apply drop_all. Qed.

(** Every operation either leaves the log alone or adds one request that
    is fixed by the arguments. *)
Lemma places_sent query location radius language min_price max_price
    open_now types page_token log :
  (places latlng client query location radius language min_price max_price
     open_now types page_token log).2
  = log ++ sent (places latlng client query location radius language
                   min_price max_price open_now types page_token) log
  ∧ sent (places latlng client query location radius language min_price
            max_price open_now types page_token) log
    = if truthy location then
        match latlng location with
        | inl _ => []
        | inr s =>
            [places_request
               (<["location" := VStr s]> {[ "query" := query ]})
               radius language min_price max_price open_now page_token]
        end
      else [places_request {[ "query" := query ]} radius language
              min_price max_price open_now page_token].
Proof.
  unfold sent. rewrite places_run.
  destruct (truthy location); [destruct (latlng location) as [e|s] |]; cbn;
    rewrite ?drop_app_length, ?drop_all, ?app_nil_r; done.
Qed.

Lemma places_autocomplete_sent input_text offset location radius language
    log :
  let params : gmap string value :=
    if truthy offset
    then <["offset" := offset]> {[ "input" := input_text ]}
    else {[ "input" := input_text ]} in
  (places_autocomplete latlng client input_text offset location radius
     language log).2
  = log ++ sent (places_autocomplete latlng client input_text offset
                   location radius language) log
  ∧ sent (places_autocomplete latlng client input_text offset location
            radius language) log
    = if truthy location then
        match latlng location with
        | inl _ => []
        | inr s => [autocomplete_request (<["location" := VStr s]> params)
                      radius language]
        end
      else [autocomplete_request params radius language].
Proof.
  unfold sent. rewrite places_autocomplete_run.
  destruct (truthy location); [destruct (latlng location) as [e|s] |]; cbn;
    rewrite ?drop_app_length, ?drop_all, ?app_nil_r; done.
Qed.

Lemma places_photo_sent photo_reference max_width max_height log :
  (places_photo client photo_reference max_width max_height log).2
  = log ++ sent (places_photo client photo_reference max_width max_height)
             log
  ∧ sent (places_photo client photo_reference max_width max_height) log
    = if truthy max_width || truthy max_height
      then [photo_request photo_reference max_width max_height]
      else [].
Proof.
  unfold sent. rewrite places_photo_run.
  destruct (truthy max_width || truthy max_height); cbn;
    rewrite ?drop_app_length, ?drop_all, ?app_nil_r; done.
Qed.

Lemma place_sent place_id language log :
  (place client place_id language log).2
  = log ++ sent (place client place_id language) log
  ∧ sent (place client place_id language) log
    = [Request "/maps/api/place/details/json"
         (if truthy language
          then <["language" := language]> {[ "placeid" := place_id ]}
          else {[ "placeid" := place_id ]})
         None None].
Proof.
  unfold sent. rewrite place_run. cbn. by rewrite drop_app_length.
Qed.

(** X6.  What an operation sends is fixed by its arguments: the requests
    it adds are the same for every collaborator and after every history
    of earlier calls. *)
Theorem requests_depend_on_arguments_only (client' : Client)
    (log log' : list request) :
  (∀ query location radius language min_price max_price open_now types
     page_token,
     sent (places latlng client query location radius language min_price
             max_price open_now types page_token) log
     = sent (places latlng client' query location radius language
               min_price max_price open_now types page_token) log')
  ∧ (∀ place_id language,
       sent (place client place_id language) log
       = sent (place client' place_id language) log')
  ∧ (∀ photo_reference max_width max_height,
       sent (places_photo client photo_reference max_width max_height) log
       = sent (places_photo client' photo_reference max_width max_height)
           log')
  ∧ (∀ input_text offset location radius language,
       sent (places_autocomplete latlng client input_text offset location
               radius language) log
       = sent (places_autocomplete latlng client' input_text offset
                 location radius language) log').
Proof.
  split_and!; intros.
  - unfold sent. rewrite !places_run.
    destruct (truthy location); [destruct (latlng location) |]; cbn;
      rewrite ?drop_app_length, ?drop_all; done.
  - unfold sent. rewrite !place_run. cbn. by rewrite !drop_app_length.
  - unfold sent. rewrite !places_photo_run.
    destruct (truthy max_width || truthy max_height); cbn;
      rewrite ?drop_app_length, ?drop_all; done.
  - unfold sent. rewrite !places_autocomplete_run.
    destruct (truthy location); [destruct (latlng location) |]; cbn;
      rewrite ?drop_app_length, ?drop_all; done.
Qed.

(** X7.  No operation drops or rewrites an earlier call, and none makes
    more than one call of its own: the log after a run is the log before
    it followed by at most one request. *)
Theorem operations_append_at_most_one_call (log : list request) :
  (∀ query location radius language min_price max_price open_now types
     page_token,
     let m := places latlng client query location radius language
                min_price max_price open_now types page_token in
     (m log).2 = log ++ sent m log ∧ length (sent m log) ≤ 1)
  ∧ (∀ place_id language,
       let m := place client place_id language in
       (m log).2 = log ++ sent m log ∧ length (sent m log) = 1)
  ∧ (∀ photo_reference max_width max_height,
       let m := places_photo client photo_reference max_width max_height in
       (m log).2 = log ++ sent m log ∧ length (sent m log) ≤ 1)
  ∧ (∀ input_text offset location radius language,
       let m := places_autocomplete latlng client input_text offset
                  location radius language in
       (m log).2 = log ++ sent m log ∧ length (sent m log) ≤ 1).
Proof.
  split_and!; intros; subst m.
  - destruct (places_sent query location radius language min_price
                max_price open_now types page_token log) as [Hlog Hsent].
    split; [done |]. rewrite Hsent.
    destruct (truthy location); [destruct (latlng location) |]; cbn; lia.
  - destruct (place_sent place_id language log) as [Hlog Hsent].
    split; [done |]. by rewrite Hsent.
  - destruct (places_photo_sent photo_reference max_width max_height log)
      as [Hlog Hsent].
    split; [done |]. rewrite Hsent.
    destruct (truthy max_width || truthy max_height); cbn; lia.
  - destruct (places_autocomplete_sent input_text offset location radius
                language log) as [Hlog Hsent].
    split; [done |]. rewrite Hsent.
    destruct (truthy location); [destruct (latlng location) |]; cbn; lia.
Qed.

(** X8.  [places_photo] raises its [ValueError], with no call, exactly
    when both size hints are falsy (None, 0, an empty string, ...); in
    every other case it makes its one call. *)
Theorem places_photo_raises_iff_no_hint photo_reference max_width
    max_height log :
  (places_photo client photo_reference max_width max_height log
   = (inl (ValueError "a max_width or max_height arg is required"), log)
   ↔ truthy max_width = false ∧ truthy max_height = false)
  ∧ ((∃ req, sends (places_photo client photo_reference max_width
                      max_height) log req)
     ↔ truthy max_width = true ∨ truthy max_height = true).
Proof.
  unfold sends. rewrite places_photo_run.
  destruct (truthy max_width), (truthy max_height); cbn.
  4: { split; [done |]. split; [| intros [? | ?]; done].
       intros [req H]. by apply log_not_extended in H. }
  all: split; [split; [| intros [? ?]; done] | split; eauto].
  all: intros [= _ H]; by apply eq_sym, log_not_extended in H.
Qed.

(** X9.  Every photo request goes to the photo path with the identity
    [extract_body] and [stream=True], carries the reference as given,
    and carries each size hint under its key when it is truthy and not
    otherwise. *)
Theorem places_photo_request_shape photo_reference max_width max_height
    log req :
  sends (places_photo client photo_reference max_width max_height) log req →
  req_path req = "/maps/api/place/photo"
  ∧ req_extract_body req = Some Identity
  ∧ req_requests_kwargs req = Some {[ "stream" := VBool true ]}
  ∧ req_params req !! "photoreference" = Some photo_reference
  ∧ req_params req !! "maxwidth"
    = (if truthy max_width then Some max_width else None)
  ∧ req_params req !! "maxheight"
    = (if truthy max_height then Some max_height else None).
Proof.
  intros (_ & -> & _)%places_photo_request_inv.
  unfold photo_request; cbn.
  destruct (truthy max_width), (truthy max_height);
    split_and!; by simplify_map_eq.
Qed.

(** X10.  When the collaborator hands back the raw response,
    [places_photo] returns the chunks of its body, all of them, in
    order and unchanged. *)
Theorem places_photo_returns_chunks photo_reference max_width max_height
    log req chunks :
  sends (places_photo client photo_reference max_width max_height) log req →
  respond client log req = inr (Raw chunks) →
  places_photo client photo_reference max_width max_height log
  = (inr chunks, log ++ [req]).
Proof.
  intros (_ & _ & ->)%places_photo_request_inv Hresp. by rewrite Hresp.
Qed.

(** X11.  When the collaborator hands back a parsed body instead of the
    raw response, [places_photo] fails on [iter_content] with an
    [AttributeError], after the call has been made. *)
Theorem places_photo_needs_raw_response photo_reference max_width
    max_height log req body :
  sends (places_photo client photo_reference max_width max_height) log req →
  respond client log req = inr (Body body) →
  places_photo client photo_reference max_width max_height log
  = (inl (AttributeError "iter_content"), log ++ [req]).
Proof.
  intros (_ & _ & ->)%places_photo_request_inv Hresp. by rewrite Hresp.
Qed.

(** X12.  An envelope without a [predictions] field makes
    [places_autocomplete] raise [KeyError] for that key, after the call
    has been made. *)
Theorem places_autocomplete_missing_predictions input_text offset location
    radius language log req (envelope : gmap string value) :
  sends (places_autocomplete latlng client input_text offset location
           radius language) log req →
  respond client log req = inr (Body (VDict envelope)) →
  envelope !! "predictions" = None →
  places_autocomplete latlng client input_text offset location radius
    language log
  = (inl (KeyError "predictions"), log ++ [req]).
Proof.
  intros Hsend Hresp Hnone.
  rewrite (places_autocomplete_sends_inv _ _ _ _ _ _ _ _ _ Hsend), Hresp.
  cbn. by rewrite Hnone.
Qed.

(** X13.  [places_autocomplete] returns a value only when the
    collaborator returned a mapping that has a [predictions] field, and
    the value is that field's. *)
Theorem places_autocomplete_success_inv input_text offset location radius
    language log predictions :
  (places_autocomplete latlng client input_text offset location radius
     language log).1 = inr predictions →
  ∃ req (envelope : gmap string value),
    sends (places_autocomplete latlng client input_text offset location
             radius language) log req ∧
    respond client log req = inr (Body (VDict envelope)) ∧
    envelope !! "predictions" = Some predictions.
Proof.
  unfold sends. rewrite places_autocomplete_run. cbn.
  destruct (truthy location); [destruct (latlng location) as [e|s] |]; cbn;
    try done;
    intros H; eexists; cbn in *;
    match type of H with
    | context [respond client log ?r] =>
        destruct (respond client log r) as [e' | [[] | chunks]] eqn:Hr;
          cbn in H; try done
    end;
    match type of H with
    | context [?d !! "predictions"] =>
        destruct (d !! "predictions") eqn:Hp; [| done]
    end;
    simplify_eq; eauto.
Qed.

(** X14.  An exception of the collaborator comes out of
    [places_autocomplete] as it is, and so does one out of
    [places_photo], each on its own. *)
Theorem collaborator_exceptions_propagate (log : list request) :
  (∀ input_text offset location radius language req e,
     sends (places_autocomplete latlng client input_text offset location
              radius language) log req →
     respond client log req = inl e →
     places_autocomplete latlng client input_text offset location radius
       language log
     = (inl e, log ++ [req]))
  ∧ (∀ photo_reference max_width max_height req e,
       sends (places_photo client photo_reference max_width max_height) log
         req →
       respond client log req = inl e →
       places_photo client photo_reference max_width max_height log
       = (inl e, log ++ [req])).
Proof.
  split.
  - intros * Ha Hra.
    by rewrite (places_autocomplete_sends_inv _ _ _ _ _ _ _ _ _ Ha), Hra.
  - intros * (_ & _ & Hp)%places_photo_request_inv Hrp.
    by rewrite Hp, Hrp.
Qed.

End outcomes.

Section more_requests.

Context (latlng : value → result string) (client : Client).

(** X15.  Every autocomplete request goes to the query-autocomplete path
    with default transport options and carries the input text as given,
    even when it is empty; [offset], [radius] and [language] are passed
    through when truthy and left out otherwise, so an offset of 0 is
    never sent. *)
Theorem places_autocomplete_request_shape input_text offset location radius
    language log req :
  sends (places_autocomplete latlng client input_text offset location
           radius language) log req →
  req_path req = "/maps/api/place/queryautocomplete/json"
  ∧ req_extract_body req = None
  ∧ req_requests_kwargs req = None
  ∧ req_params req !! "input" = Some input_text
  ∧ req_params req !! "offset"
    = (if truthy offset then Some offset else None)
  ∧ req_params req !! "radius"
    = (if truthy radius then Some radius else None)
  ∧ req_params req !! "language"
    = (if truthy language then Some language else None).
Proof.
  intros [[_ ->] | (s & _ & _ & ->)]%places_autocomplete_location_inv;
    unfold autocomplete_request; cbn;
    destruct (truthy offset), (truthy radius), (truthy language);
    split_and!; by simplify_map_eq.
Qed.

(** X16.  The keys of the mapping an autocomplete sends are [input] and
    the keys of the truthy optional arguments, and no others. *)
Theorem places_autocomplete_request_keys input_text offset location radius
    language log req :
  sends (places_autocomplete latlng client input_text offset location
           radius language) log req →
  dom (req_params req)
  = {[ "input" ]} ∪ key_if (truthy offset) "offset"
    ∪ key_if (truthy location) "location"
    ∪ key_if (truthy radius) "radius"
    ∪ key_if (truthy language) "language".
Proof.
  intros [[Hfalsy ->] | (s & Htruthy & _ & ->)]
    %places_autocomplete_location_inv;
    unfold autocomplete_request, key_if; cbn;
    [rewrite Hfalsy | rewrite Htruthy];
    destruct (truthy offset), (truthy radius), (truthy language);
    rewrite ?dom_insert_L, ?dom_singleton_L; set_solver.
Qed.

(** X17.  A text search and an autocomplete treat the same location the
    same way: either both stop, before any call, on the exception that
    [convert.latlng] raised, or both send the same [location] entry (or
    both none). *)
Theorem places_and_autocomplete_agree_on_location query input_text offset
    location radius radius' language language' min_price max_price open_now
    types page_token log log' :
  (∃ e,
     places latlng client query location radius language min_price
       max_price open_now types page_token log = (inl e, log) ∧
     places_autocomplete latlng client input_text offset location radius'
       language' log' = (inl e, log'))
  ∨ (∃ req req',
       sends (places latlng client query location radius language min_price
                max_price open_now types page_token) log req ∧
       sends (places_autocomplete latlng client input_text offset location
                radius' language') log' req' ∧
       req_params req !! "location" = req_params req' !! "location").
Proof.
  unfold sends. rewrite places_run, places_autocomplete_run. cbv zeta.
  destruct (truthy location); [destruct (latlng location) as [e|s] |].
  - left. by exists e.
  - right. do 2 eexists. split_and!; [done.. |].
    rewrite autocomplete_request_location.
    unfold places_request; cbn. rewrite places_fields_location.
    by simplify_map_eq.
  - right. do 2 eexists. split_and!; [done.. |].
    rewrite autocomplete_request_location.
    unfold places_request; cbn. rewrite places_fields_location.
    destruct (truthy offset); by simplify_map_eq.
Qed.

(** X18.  [place] checks nothing: whatever the place id (None and the
    empty string included) it makes its one call, on the details path
    with default transport options, with [placeid] as given, with
    [language] when it is truthy, and with no other key. *)
Theorem place_request_shape place_id language log :
  ∃ req,
    place client place_id language log
    = (respond client log req, log ++ [req])
    ∧ req_path req = "/maps/api/place/details/json"
    ∧ req_extract_body req = None
    ∧ req_requests_kwargs req = None
    ∧ req_params req !! "placeid" = Some place_id
    ∧ req_params req !! "language"
      = (if truthy language then Some language else None)
    ∧ dom (req_params req)
      = {[ "placeid" ]} ∪ key_if (truthy language) "language".
Proof.
  rewrite place_run. cbn. eexists. split; [done |]. cbn. unfold key_if.
  destruct (truthy language); split_and!; try by simplify_map_eq.
  all: rewrite ?dom_insert_L, ?dom_singleton_L; set_solver.
Qed.

End more_requests.

(** ** The nox sessions *)

Section sessions.

Import noxfile.

Context (session : Session).

Lemma act_run (a : action) (log : list action) :
  act session a log
  = (match perform session log a with
     | Some e => inl e
     | None => inr ()
     end, log ++ [a]).
Proof. reflexivity. Qed.

Lemma perform_all_cons (a : action) (rest log : list action) :
  perform_all session (a :: rest) log
  = match perform session log a with
    | Some e => (inl e, log ++ [a])
    | None => perform_all session rest (log ++ [a])
    end.
Proof.
  cbn. unfold mbind, N_bind. rewrite act_run.
  by destruct (perform session log a).
Qed.

Local Ltac by_steps :=
  rewrite !perform_all_cons;
  unfold _install_dev_packages, _install_test_dependencies,
    _install_doc_dependencies, install, run, notify, mbind, N_bind;
  rewrite !act_run;
  repeat match goal with
         | |- context [perform session ?l ?a] =>
             destruct (perform session l a); try reflexivity
         end.

Lemma tests_perform_all (log : list action) :
  tests session log = perform_all session tests_script log.
Proof. unfold tests_script, tests. by_steps. Qed.

Lemma cover_perform_all (log : list action) :
  cover session log = perform_all session cover_script log.
Proof. unfold cover_script, cover. by_steps. Qed.

Lemma docs_perform_all (log : list action) :
  docs session log = perform_all session docs_script log.
Proof. unfold docs_script, docs. cbv zeta. by_steps. Qed.

(** The actions performed are the script up to the first one that
    raises; the outcome is that action's exception, or a normal return
    at the end of the script. *)
Lemma perform_all_trace (script log : list action) :
  ∃ trace,
    (perform_all session script log).2 = log ++ trace ∧
    trace `prefix_of` script ∧
    ((perform_all session script log).1 = inr () → trace = script) ∧
    (∀ e, (perform_all session script log).1 = inl e →
          ∃ pre a, trace = pre ++ [a] ∧
                   perform session (log ++ pre) a = Some e) ∧
    (∀ pre a rest, trace = pre ++ a :: rest → rest ≠ [] →
                   perform session (log ++ pre) a = None).
Proof.
  revert log. induction script as [| a script IH]; intros log.
  - exists []. cbn. rewrite app_nil_r. split_and!; try done.
    intros pre a rest H. by destruct pre.
  - rewrite perform_all_cons.
    destruct (perform session log a) as [e |] eqn:Ha.
    + exists [a]. cbn. split_and!; try done.
      * apply prefix_cons, prefix_nil.
      * intros e' [= <-]. exists [], a. by rewrite app_nil_r.
      * intros [| b pre] a' rest H Hrest; simplify_eq/=.
        by destruct pre.
    + destruct (IH (log ++ [a])) as (trace & Hlog & Hpre & Hok & Herr & Hmid).
      exists (a :: trace). split_and!.
      * by rewrite Hlog, <- app_assoc.
      * by apply prefix_cons.
      * intros H. by rewrite (Hok H).
      * intros e H. destruct (Herr e H) as (pre & b & -> & Hb).
        exists (a :: pre), b. split; [done |].
        by rewrite <- app_assoc in Hb.
      * intros [| b pre] a' rest H Hrest; simplify_eq/=.
        -- by rewrite app_nil_r.
        -- specialize (Hmid pre a' rest eq_refl Hrest).
           by rewrite <- app_assoc in Hmid.
Qed.

Lemma performed_perform_all (script log trace : list action) :
  (perform_all session script log).2 = log ++ trace →
  performed (perform_all session script) log = trace.
Proof. intros H. unfold performed. rewrite H. apply drop_app_length. Qed.

(** Every registered session performs a script. *)
Lemma sessions_scripts name python (f : Session → N ()) :
  (name, python, f) ∈ sessions →
  ∃ script, (name, script) ∈ scripts ∧
            ∀ log, f session log = perform_all session script log.
Proof.
  unfold sessions, scripts. rewrite !elem_of_cons, elem_of_nil.
  intros [[= -> -> ->] | [[= -> -> ->] | [[= -> -> ->] | []]]].
  - exists tests_script. split; [set_solver |]. apply tests_perform_all.
  - exists cover_script. split; [set_solver |]. apply cover_perform_all.
  - exists docs_script. split; [set_solver |]. apply docs_perform_all.
Qed.

End sessions.

Section session_properties.

Import noxfile.

Context (session : Session).

(** What is known of the actions a registered session performs. *)
Lemma session_trace name python (f : Session → N ()) (log : list action) :
  (name, python, f) ∈ sessions →
  ∃ script,
    (name, script) ∈ scripts ∧
    (f session log).2 = log ++ performed (f session) log ∧
    performed (f session) log `prefix_of` script ∧
    ((f session log).1 = inr () → performed (f session) log = script) ∧
    (∀ e, (f session log).1 = inl e →
          ∃ pre a, performed (f session) log = pre ++ [a] ∧
                   perform session (log ++ pre) a = Some e) ∧
    (∀ pre a rest, performed (f session) log = pre ++ a :: rest →
                   rest ≠ [] → perform session (log ++ pre) a = None).
Proof.
  intros (script & Hscript & Hrun)%(sessions_scripts session).
  exists script. split; [done |].
  destruct (perform_all_trace session script log)
    as (trace & Hlog & Hpre & Hok & Herr & Hmid).
  unfold performed. rewrite Hrun, Hlog, drop_app_length.
  by split_and!.
Qed.

Lemma scripts_inv name script :
  (name, script) ∈ scripts →
  (name = "tests" ∧ script = tests_script)
  ∨ (name = "cover" ∧ script = cover_script)
  ∨ (name = "docs" ∧ script = docs_script).
Proof.
  unfold scripts. rewrite !elem_of_cons, elem_of_nil.
  intros [[= -> ->] | [[= -> ->] | [[= -> ->] | []]]]; auto.
Qed.


(** X20.  When a registered session raises, the exception is the one
    raised by the last action it performed, and every action before
    that one had returned. *)
Theorem session_failure_is_last_action name python (f : Session → N ())
    (log : list action) e :
  (name, python, f) ∈ sessions →
  (f session log).1 = inl e →
  ∃ pre a,
    performed (f session) log = pre ++ [a] ∧
    perform session (log ++ pre) a = Some e ∧
    (∀ i b, pre !! i = Some b →
            perform session (log ++ take i pre) b = None).
Proof.
  intros Hf He.
  destruct (session_trace _ _ _ log Hf)
    as (script & _ & _ & _ & _ & Herr & Hmid).
  destruct (Herr e He) as (pre & a & Htrace & Ha).
  exists pre, a. split_and!; [done.. |].
  intros i b Hi. apply (Hmid (take i pre) b (drop (S i) pre ++ [a])).
  - rewrite Htrace. rewrite <- (take_drop_middle pre i b Hi) at 1.
    by rewrite <- app_assoc.
  - by destruct (drop (S i) pre).
Qed.

(** X21.  [tests] notifies [cover] exactly when its three installs and
    the run of pytest have all returned. *)
Theorem tests_notifies_cover_iff_green (log : list action) :
  Notify "cover" ∈ performed (tests session) log
  ↔ (∀ i a, i < 4 → tests_script !! i = Some a →
            perform session (log ++ take i tests_script) a = None).
Proof.
  split.
  - intros Hin.
    destruct (session_trace "tests" _ tests log ltac:(by constructor))
      as (script & [[_ ->] | [[? _] | [? _]]]%scripts_inv & _ & Hpre & _ & _
          & Hmid); try done.
    apply list_elem_of_lookup in Hin as [j Hj].
    pose proof (prefix_lookup_Some _ _ _ _ Hj Hpre) as Hj'.
    assert (j = 4) as ->.
    { do 5 (destruct j as [| j]; simplify_eq/=; try done). }
    assert (performed (tests session) log = tests_script) as Hall.
    { apply prefix_length_eq; [done |].
      apply lookup_lt_Some in Hj. cbn. lia. }
    intros i a Hi Ha.
    apply (Hmid (take i tests_script) a (drop (S i) tests_script)).
    + by rewrite Hall, (take_drop_middle _ _ _ Ha).
    + do 4 (destruct i as [| i]; [done |]). lia.
  - intros Hgreen. unfold performed. rewrite tests_perform_all.
    pose proof (Hgreen 0 _ ltac:(lia) eq_refl) as H0.
    pose proof (Hgreen 1 _ ltac:(lia) eq_refl) as H1.
    pose proof (Hgreen 2 _ ltac:(lia) eq_refl) as H2.
    pose proof (Hgreen 3 _ ltac:(lia) eq_refl) as H3.
    cbn [take tests_script] in H0, H1, H2, H3. rewrite app_nil_r in H0.
    unfold tests_script.
    rewrite perform_all_cons, H0.
    rewrite perform_all_cons, H1, <- app_assoc. cbn [app].
    rewrite perform_all_cons, H2, <- app_assoc. cbn [app].
    rewrite perform_all_cons, H3, <- app_assoc. cbn [app].
    rewrite perform_all_cons.
    destruct (perform session _ (Notify "cover")); cbn;
      rewrite <- app_assoc, drop_app_length; set_solver.
Qed.

(** What a registered session performs, position by position, is in its
    script. *)
Lemma session_lookup name python (f : Session → N ()) (log : list action)
    i a :
  (name, python, f) ∈ sessions →
  performed (f session) log !! i = Some a →
  ∃ script, (name, script) ∈ scripts ∧ script !! i = Some a.
Proof.
  intros Hf Hi.
  destruct (session_trace _ _ _ log Hf) as (script & Hs & _ & Hpre & _).
  exists script. split; [done |]. by eapply prefix_lookup_Some.
Qed.

Local Ltac by_position i :=
  do 6 (try destruct i as [| i]); simplify_eq/=; try done; try lia.

(** X22.  [docs] runs sphinx-build only after [rm -rf docs/_build], run
    as an external command, has returned; by then both installs have
    been performed too. *)
Theorem docs_builds_after_cleaning (log : list action) args external :
  Run ("sphinx-build" :: args) external ∈ performed (docs session) log →
  performed (docs session) log = docs_script
  ∧ perform session (log ++ take 2 docs_script)
      (Run ["rm"; "-rf"; "docs/_build"] true) = None.
Proof.
  intros Hin.
  destruct (session_trace "docs" _ docs log
              ltac:(repeat constructor))
    as (script & [[? _] | [[? _] | [_ ->]]]%scripts_inv & _ & Hpre & _ & _
        & Hmid); try done.
  apply list_elem_of_lookup in Hin as [j Hj].
  pose proof (prefix_lookup_Some _ _ _ _ Hj Hpre) as Hj'.
  assert (j = 3) as -> by (by_position j).
  assert (performed (docs session) log = docs_script) as Hall.
  { apply prefix_length_eq; [done |].
    apply lookup_lt_Some in Hj. cbn. lia. }
  split; [done |].
  apply (Hmid (take 2 docs_script) _ (drop 3 docs_script)); [| done].
  by rewrite Hall.
Qed.

(** X23.  In every registered session the installs come first: no
    install is performed after a command has been run. *)
Theorem sessions_install_before_run name python (f : Session → N ())
    (log : list action) i j packages args external :
  (name, python, f) ∈ sessions →
  performed (f session) log !! i = Some (Install packages) →
  performed (f session) log !! j = Some (Run args external) →
  i < j.
Proof.
  intros Hf Hi Hj.
  destruct (session_trace _ _ _ log Hf) as (script & Hs & _ & Hpre & _).
  pose proof (prefix_lookup_Some _ _ _ _ Hi Hpre) as Hi'.
  pose proof (prefix_lookup_Some _ _ _ _ Hj Hpre) as Hj'.
  apply scripts_inv in Hs as [[_ ->] | [[_ ->] | [_ ->]]];
    by_position i; by_position j.
Qed.

(** X24.  Every session that a registered session notifies is itself
    registered. *)
Theorem sessions_notify_registered name python (f : Session → N ())
    (log : list action) target :
  (name, python, f) ∈ sessions →
  Notify target ∈ performed (f session) log →
  target ∈ sessions.*1.*1.
Proof.
  intros Hf [i Hi]%list_elem_of_lookup.
  destruct (session_lookup _ _ _ _ _ _ Hf Hi) as (script & Hs & Hi').
  apply scripts_inv in Hs as [[_ ->] | [[_ ->] | [_ ->]]];
    by_position i.
  unfold sessions. cbn. set_solver.
Qed.

(** X25.  The one command a registered session runs as external is
    [rm -rf docs/_build], and only [docs] runs it. *)
Theorem sessions_only_external_command name python (f : Session → N ())
    (log : list action) args :
  (name, python, f) ∈ sessions →
  Run args true ∈ performed (f session) log →
  name = "docs" ∧ args = ["rm"; "-rf"; "docs/_build"].
Proof.
  intros Hf [i Hi]%list_elem_of_lookup.
  destruct (session_lookup _ _ _ _ _ _ Hf Hi) as (script & Hs & Hi').
  apply scripts_inv in Hs as [[-> ->] | [[-> ->] | [-> ->]]];
    by_position i.
Qed.

End session_properties.

(** ** The further properties on concrete runs *)

(** Price bounds outside 0..4 and a negative radius go out as given. *)
Lemma places_passes_filters_through_unchecked :
  sends (places convert.latlng empty_client (VStr "bar") VNone (VInt (-1))
           (VStr "fr") (VInt 7) (VInt 9) (VBool false) VNone VNone) []
    unchecked_filters_request
  ∧ req_params unchecked_filters_request !! "radius" = Some (VInt (-1))
  ∧ req_params unchecked_filters_request !! "language" = Some (VStr "fr")
  ∧ req_params unchecked_filters_request !! "minprice" = Some (VInt 7)
  ∧ req_params unchecked_filters_request !! "maxprice" = Some (VInt 9).
Proof.
  split; [reflexivity |].
  apply (places_passes_filters_through convert.latlng empty_client
           (VStr "bar") VNone (VInt (-1)) (VStr "fr") (VInt 7) (VInt 9)
           (VBool false) VNone VNone [] unchecked_filters_request).
  reflexivity.
Defined.

(** The keys of a search with a language, a page token and types. *)
Lemma places_request_keys_language_token :
  sends (places convert.latlng empty_client (VStr "bar") VNone VNone
           (VStr "fr") VNone VNone (VBool false) (VList [VStr "cafe"])
           (VStr "token-2")) [] language_token_request
  ∧ dom (req_params language_token_request)
    = {[ "query" ]} ∪ key_if false "location" ∪ key_if false "radius"
      ∪ key_if true "language" ∪ key_if false "minprice"
      ∪ key_if false "maxprice" ∪ key_if false "opennow"
      ∪ key_if true "pagetoken"
  ∧ "types" ∉ dom (req_params language_token_request).
Proof.
  split; [reflexivity |].
  apply (places_request_keys convert.latlng empty_client (VStr "bar")
           VNone VNone (VStr "fr") VNone VNone (VBool false)
           (VList [VStr "cafe"]) (VStr "token-2") []
           language_token_request).
  reflexivity.
Defined.

(** [open_now="false"], a non-empty string, asks for open places. *)
Lemma places_opennow_string_false :
  sends (places convert.latlng empty_client (VStr "restaurant") VNone
           VNone VNone VNone VNone (VStr "false") VNone VNone) []
    open_restaurants_request
  ∧ req_params open_restaurants_request !! "opennow" = Some (VStr "true").
Proof.
  split; [reflexivity |].
  apply (places_opennow_any_truthy convert.latlng empty_client
           (VStr "restaurant") VNone VNone VNone VNone VNone (VStr "false")
           VNone VNone [] open_restaurants_request).
  reflexivity.
Defined.

(** A photo asked for with both size hints. *)
Lemma places_photo_request_shape_both_hints :
  sends (places_photo empty_client (VStr "ref") (VInt 100) (VInt 200)) []
    photo_both_request
  ∧ req_path photo_both_request = "/maps/api/place/photo"
  ∧ req_extract_body photo_both_request = Some Identity
  ∧ req_requests_kwargs photo_both_request
    = Some {[ "stream" := VBool true ]}
  ∧ req_params photo_both_request !! "photoreference" = Some (VStr "ref")
  ∧ req_params photo_both_request !! "maxwidth" = Some (VInt 100)
  ∧ req_params photo_both_request !! "maxheight" = Some (VInt 200).
Proof.
  split; [reflexivity |].
  apply (places_photo_request_shape empty_client (VStr "ref") (VInt 100)
           (VInt 200) [] photo_both_request).
  reflexivity.
Defined.

(** A photo whose body comes in two chunks. *)
Lemma places_photo_returns_two_chunks :
  sends (places_photo (raw_client ["ab"; "cd"]) (VStr "ref") (VInt 100)
           VNone) [] photo_width_request
  ∧ respond (raw_client ["ab"; "cd"]) [] photo_width_request
    = inr (Raw ["ab"; "cd"])
  ∧ places_photo (raw_client ["ab"; "cd"]) (VStr "ref") (VInt 100) VNone []
    = (inr ["ab"; "cd"], [] ++ [photo_width_request]).
Proof.
  split; [reflexivity |]. split; [reflexivity |].
  apply (places_photo_returns_chunks (raw_client ["ab"; "cd"])
           (VStr "ref") (VInt 100) VNone [] photo_width_request
           ["ab"; "cd"]); reflexivity.
Defined.

(** A collaborator that parses the body in spite of [extract_body]. *)
Lemma places_photo_on_parsed_body :
  sends (places_photo empty_client (VStr "ref") (VInt 100) VNone) []
    photo_width_request
  ∧ respond empty_client [] photo_width_request = inr (Body (VDict ∅))
  ∧ places_photo empty_client (VStr "ref") (VInt 100) VNone []
    = (inl (AttributeError "iter_content"), [] ++ [photo_width_request]).
Proof.
  split; [reflexivity |]. split; [reflexivity |].
  apply (places_photo_needs_raw_response empty_client (VStr "ref")
           (VInt 100) VNone [] photo_width_request (VDict ∅));
    reflexivity.
Defined.

(** An autocomplete answered with the empty envelope. *)
Lemma places_autocomplete_on_empty_envelope :
  sends (places_autocomplete convert.latlng empty_client
           (VStr "pizza near New York") VNone VNone VNone VNone) []
    pizza_request
  ∧ respond empty_client [] pizza_request = inr (Body (VDict ∅))
  ∧ (∅ : gmap string value) !! "predictions" = None
  ∧ places_autocomplete convert.latlng empty_client
      (VStr "pizza near New York") VNone VNone VNone VNone []
    = (inl (KeyError "predictions"), [] ++ [pizza_request]).
Proof.
  split_and!; [reflexivity.. |].
  apply (places_autocomplete_missing_predictions convert.latlng
           empty_client (VStr "pizza near New York") VNone VNone VNone
           VNone [] pizza_request ∅); reflexivity.
Defined.

(** The pizza scenario, read backwards. *)
Lemma places_autocomplete_success_inv_pizza :
  (places_autocomplete convert.latlng pizza_client
     (VStr "pizza near New York") VNone VNone VNone VNone []).1
  = inr (VList [VDict {[ "description" := VStr "Pizza Place" ]}])
  ∧ ∃ req (envelope : gmap string value),
      sends (places_autocomplete convert.latlng pizza_client
               (VStr "pizza near New York") VNone VNone VNone VNone) []
        req ∧
      respond pizza_client [] req = inr (Body (VDict envelope)) ∧
      envelope !! "predictions"
      = Some (VList [VDict {[ "description" := VStr "Pizza Place" ]}]).
Proof.
  split; [reflexivity |].
  apply (places_autocomplete_success_inv convert.latlng pizza_client
           (VStr "pizza near New York") VNone VNone VNone VNone []).
  reflexivity.
Defined.

(** A collaborator that is over its quota. *)
Lemma collaborator_exceptions_propagate_quota :
  places_autocomplete convert.latlng
    (failing_client (ApiError "OVER_QUERY_LIMIT"))
    (VStr "pizza near New York") VNone VNone VNone VNone []
  = (inl (ApiError "OVER_QUERY_LIMIT"), [] ++ [pizza_request])
  ∧ places_photo (failing_client (ApiError "OVER_QUERY_LIMIT"))
      (VStr "ref") (VInt 100) VNone []
    = (inl (ApiError "OVER_QUERY_LIMIT"), [] ++ [photo_width_request]).
Proof.
  split.
  - apply (proj1 (collaborator_exceptions_propagate convert.latlng
                    (failing_client (ApiError "OVER_QUERY_LIMIT")) []));
      reflexivity.
  - apply (proj2 (collaborator_exceptions_propagate convert.latlng
                    (failing_client (ApiError "OVER_QUERY_LIMIT")) []));
      reflexivity.
Defined.

(** The docstring's example: input 'Google' with offset 3. *)
Lemma places_autocomplete_request_shape_offset :
  sends (places_autocomplete convert.latlng empty_client (VStr "Google")
           (VInt 3) VNone VNone VNone) [] google_request
  ∧ req_path google_request = "/maps/api/place/queryautocomplete/json"
  ∧ req_extract_body google_request = None
  ∧ req_requests_kwargs google_request = None
  ∧ req_params google_request !! "input" = Some (VStr "Google")
  ∧ req_params google_request !! "offset" = Some (VInt 3)
  ∧ req_params google_request !! "radius" = None
  ∧ req_params google_request !! "language" = None.
Proof.
  split; [reflexivity |].
  apply (places_autocomplete_request_shape convert.latlng empty_client
           (VStr "Google") (VInt 3) VNone VNone VNone [] google_request).
  reflexivity.
Defined.

Lemma places_autocomplete_request_keys_offset :
  sends (places_autocomplete convert.latlng empty_client (VStr "Google")
           (VInt 3) VNone VNone VNone) [] google_request
  ∧ dom (req_params google_request)
    = {[ "input" ]} ∪ key_if true "offset" ∪ key_if false "location"
      ∪ key_if false "radius" ∪ key_if false "language".
Proof.
  split; [reflexivity |].
  apply (places_autocomplete_request_keys convert.latlng empty_client
           (VStr "Google") (VInt 3) VNone VNone VNone [] google_request).
  reflexivity.
Defined.


(** The [tests] session when pytest fails. *)
Lemma session_failure_is_last_action_red :
  (noxfile.tests noxfile.red_session []).1
  = inl (noxfile.CommandFailed "pytest")
  ∧ ∃ pre a,
      noxfile.performed (noxfile.tests noxfile.red_session) []
      = pre ++ [a] ∧
      noxfile.perform noxfile.red_session ([] ++ pre) a
      = Some (noxfile.CommandFailed "pytest") ∧
      (∀ i b, pre !! i = Some b →
              noxfile.perform noxfile.red_session ([] ++ take i pre) b
              = None).
Proof.
  split; [reflexivity |].
  eapply (session_failure_is_last_action noxfile.red_session "tests"
           _ noxfile.tests []
           (noxfile.CommandFailed "pytest")).
  - repeat constructor.
  - reflexivity.
Defined.

(** The [docs] session when everything returns. *)
Lemma docs_builds_after_cleaning_green :
  noxfile.Run ["sphinx-build"; "-a"; "-E"; "-b"; "html"; "-d";
               "docs/_build/doctrees"; "docs"; "docs/_build/html"] false
  ∈ noxfile.performed (noxfile.docs noxfile.fine_session) []
  ∧ noxfile.performed (noxfile.docs noxfile.fine_session) []
    = noxfile.docs_script
  ∧ noxfile.perform noxfile.fine_session
      ([] ++ take 2 noxfile.docs_script)
      (noxfile.Run ["rm"; "-rf"; "docs/_build"] true) = None.
Proof.
  assert (noxfile.Run ["sphinx-build"; "-a"; "-E"; "-b"; "html"; "-d";
                       "docs/_build/doctrees"; "docs"; "docs/_build/html"]
            false
          ∈ noxfile.performed (noxfile.docs noxfile.fine_session) [])
    as Hin.
  { unfold noxfile.performed. cbn. repeat constructor. }
  split; [exact Hin |].
  exact (docs_builds_after_cleaning noxfile.fine_session [] _ _ Hin).
Defined.

Lemma sessions_install_before_run_pytest :
  noxfile.performed (noxfile.tests noxfile.fine_session) [] !! 2
  = Some (noxfile.Install ["pytest"])
  ∧ noxfile.performed (noxfile.tests noxfile.fine_session) [] !! 3
    = Some (noxfile.Run ["pytest"] false)
  ∧ 2 < 3.
Proof.
  split; [reflexivity |]. split; [reflexivity |].
  eapply (sessions_install_before_run noxfile.fine_session "tests"
           _ noxfile.tests [] 2 3
           ["pytest"] ["pytest"] false).
  - repeat constructor.
  - reflexivity.
  - reflexivity.
Defined.

Lemma sessions_notify_registered_cover :
  noxfile.Notify "cover"
  ∈ noxfile.performed (noxfile.tests noxfile.fine_session) []
  ∧ "cover" ∈ noxfile.sessions.*1.*1.
Proof.
  assert (noxfile.Notify "cover"
          ∈ noxfile.performed (noxfile.tests noxfile.fine_session) [])
    as Hin.
  { unfold noxfile.performed. cbn. repeat constructor. }
  split; [exact Hin |].
  eapply (sessions_notify_registered noxfile.fine_session "tests"
           _ noxfile.tests [] "cover");
    [repeat constructor | exact Hin].
Defined.

Lemma sessions_only_external_command_docs :
  noxfile.Run ["rm"; "-rf"; "docs/_build"] true
  ∈ noxfile.performed (noxfile.docs noxfile.fine_session) []
  ∧ "docs" = "docs"
  ∧ ["rm"; "-rf"; "docs/_build"] = ["rm"; "-rf"; "docs/_build"].
Proof.
  assert (noxfile.Run ["rm"; "-rf"; "docs/_build"] true
          ∈ noxfile.performed (noxfile.docs noxfile.fine_session) [])
    as Hin.
  { unfold noxfile.performed. cbn. repeat constructor. }
  split; [exact Hin |].
  eapply (sessions_only_external_command noxfile.fine_session "docs"
           _ noxfile.docs []);
    [repeat constructor | exact Hin].
Defined.
